(** * ClarityCut: the review player's playback and skip logic

    A shallow embedding of [src/types.ts], of the review view
    [src/components/ReviewPhase.tsx] (the animation-frame tick [checkTime],
    [previewCut], [skip], the scrub handlers, [toggleCutStatus], [stats]) and
    of [calculateMetrics] of the application root ([src/unnamed/part_000]),
    with the analysis filter and the phrase-list handlers of the root and of
    [src/components/UploadPhase.tsx], the results view of
    [src/components/ProcessPhase.tsx], the mock analysis and the report
    counts of [src/services/geminiService.ts], and the time labels.

    JavaScript numbers are modelled as rationals [Q]: every operation
    ([+], [-], [*], [/], [%], [Math.max], [Math.min], [Math.floor],
    [toFixed], comparisons) is taken exactly, without floating-point
    rounding.  A division is taken with
    [Qdiv] where the divisor is known non-zero; where the divisor may be zero
    the division is [js_div], which reports the non-finite result
    ([NaN] or [Infinity]) of JavaScript as [None]. *)

From Stdlib Require Import Arith QArith Qround Lqa List String Ascii Bool Lia.
From Stdlib Require Import ZArith Sorted Permutation DecimalString DecimalNat DecimalZ.
Import ListNotations.
Open Scope string_scope.
Open Scope list_scope.
Open Scope Q_scope.

(** ** Data model ([src/types.ts]) *)

Inductive CutType := cliche | filler | silence | repetition | stutter.

Inductive CutStatus := accepted | rejected.

(** [CutEvent]; the field [end] is a keyword of Rocq and is called [end_]. *)
Record CutEvent := mkCut {
  id : string;
  type : CutType;
  word : option string;
  start : Q;
  end_ : Q;
  confidence : Q;
  status : CutStatus
}.

Record ProcessingMetrics := mkMetrics {
  originalDuration : Q;
  finalDuration : Q;
  cutsCount : nat;
  timeSaved : Q
}.

(** ** JavaScript operators on numbers *)

(** [a >= b], [a < b], [a <= b] *)
Definition js_ge (a b : Q) : bool := Qle_bool b a.
Definition js_lt (a b : Q) : bool := negb (Qle_bool b a).
Definition js_le (a b : Q) : bool := Qle_bool a b.

(** [Math.max(a, b)] and [Math.min(a, b)] on finite numbers. *)
Definition Math_max (a b : Q) : Q := if Qle_bool a b then b else a.
Definition Math_min (a b : Q) : Q := if Qle_bool a b then a else b.

(** [Math.abs(a)] *)
Definition Math_abs (a : Q) : Q := if Qle_bool 0 a then a else - a.

(** [a / b]: [None] stands for the non-finite quotient of a division by zero. *)
Definition js_div (a b : Q) : option Q :=
  if Qeq_bool b 0 then None else Some (a / b).

(** [c.status === 'accepted'] *)
Definition is_accepted (c : CutEvent) : bool :=
  match status c with accepted => true | rejected => false end.

(** [Array.prototype.find]: the first element satisfying the predicate. *)
Fixpoint find_first {A} (p : A -> bool) (l : list A) : option A :=
  match l with
  | [] => None
  | x :: l' => if p x then Some x else find_first p l'
  end.

(** ** The skip policy of [checkTime] (ReviewPhase.tsx, lines 93-97) *)

(** [c => c.status === 'accepted' && time >= c.start && time < c.end] *)
Definition skip_pred (time : Q) (c : CutEvent) : bool :=
  is_accepted c && js_ge time (start c) && js_lt time (end_ c).

(** [currentCut] *)
Definition current_cut (cuts : list CutEvent) (time : Q) : option CutEvent :=
  find_first (skip_pred time) cuts.

(** The jump target of the tick: [videoRef.current.currentTime = currentCut.end]. *)
Definition jump_target (cuts : list CutEvent) (time : Q) : option Q :=
  option_map end_ (current_cut cuts time).

(** ** The player state

    The React state of the view ([isPlaying], [currentTime], [duration],
    [activeCutId], [isScrubbing]), its refs ([wasPlayingRef],
    [previewEndTimeRef]) and the two fields of the video element it reads and
    writes ([paused], [currentTime], here [videoTime]). *)
Record Player := mkPlayer {
  isPlaying : bool;
  currentTime : Q;
  duration : Q;
  activeCutId : option string;
  isScrubbing : bool;
  wasPlaying : bool;
  previewEndTime : option Q;
  paused : bool;
  videoTime : Q
}.

Definition set_currentTime (t : Q) (s : Player) : Player :=
  mkPlayer (isPlaying s) t (duration s) (activeCutId s) (isScrubbing s)
    (wasPlaying s) (previewEndTime s) (paused s) (videoTime s).
Definition set_activeCutId (a : option string) (s : Player) : Player :=
  mkPlayer (isPlaying s) (currentTime s) (duration s) a (isScrubbing s)
    (wasPlaying s) (previewEndTime s) (paused s) (videoTime s).
Definition set_isPlaying (b : bool) (s : Player) : Player :=
  mkPlayer b (currentTime s) (duration s) (activeCutId s) (isScrubbing s)
    (wasPlaying s) (previewEndTime s) (paused s) (videoTime s).
Definition set_isScrubbing (b : bool) (s : Player) : Player :=
  mkPlayer (isPlaying s) (currentTime s) (duration s) (activeCutId s) b
    (wasPlaying s) (previewEndTime s) (paused s) (videoTime s).
Definition set_wasPlaying (b : bool) (s : Player) : Player :=
  mkPlayer (isPlaying s) (currentTime s) (duration s) (activeCutId s)
    (isScrubbing s) b (previewEndTime s) (paused s) (videoTime s).
Definition set_previewEndTime (p : option Q) (s : Player) : Player :=
  mkPlayer (isPlaying s) (currentTime s) (duration s) (activeCutId s)
    (isScrubbing s) (wasPlaying s) p (paused s) (videoTime s).
Definition set_paused (b : bool) (s : Player) : Player :=
  mkPlayer (isPlaying s) (currentTime s) (duration s) (activeCutId s)
    (isScrubbing s) (wasPlaying s) (previewEndTime s) b (videoTime s).
Definition set_videoTime (t : Q) (s : Player) : Player :=
  mkPlayer (isPlaying s) (currentTime s) (duration s) (activeCutId s)
    (isScrubbing s) (wasPlaying s) (previewEndTime s) (paused s) t.

(** ** One animation frame of [checkTime] (ReviewPhase.tsx, lines 63-116)

    The re-scheduling [requestAnimationFrame(checkTime)] is the caller's
    business: a run of the loop is an iteration of [checkTime]. *)
Definition checkTime (cuts : list CutEvent) (s : Player) : Player :=
  if isScrubbing s then s
  else if negb (paused s) then
    let time := videoTime s in
    let s1 := set_currentTime time s in
    match previewEndTime s with
    | Some pe =>
        if js_ge time pe then
          set_previewEndTime None (set_isPlaying false (set_paused true s1))
        else
          match find_first (fun c => js_ge time (start c - (3 # 2))
                                     && js_le time (end_ c + (3 # 2))) cuts with
          | Some c => set_activeCutId (Some (id c)) s1
          | None => s1
          end
    | None =>
        match current_cut cuts time with
        | Some c => set_videoTime (end_ c) (set_activeCutId (Some (id c)) s1)
        | None =>
            let upcoming :=
              find_first (fun c => js_lt (Math_abs (start c - time)) 2) cuts in
            set_activeCutId (option_map id upcoming) s1
        end
    end
  else if Bool.eqb (paused s) (negb (isPlaying s)) then s
  else set_isPlaying (negb (paused s)) s.

(** ** [previewCut] (ReviewPhase.tsx, lines 123-138)

    The video element is mounted; [play()] is taken to resolve, so its
    [.then] sets [isPlaying]. *)
Definition previewCut (cut : CutEvent) (s : Player) : Player :=
  let s1 := set_activeCutId (Some (id cut)) s in
  let st := Math_max 0 (start cut - 1) in
  let en := Math_min (duration s) (end_ cut + 1) in
  let s2 := set_previewEndTime (Some en) s1 in
  let s3 := set_videoTime st s2 in
  set_isPlaying true (set_paused false s3).

(** ** [skip] (ReviewPhase.tsx, lines 141-149) *)
Definition skip (seconds : Q) (s : Player) : Player :=
  let newTime := Math_max 0 (Math_min (duration s) (videoTime s + seconds)) in
  set_previewEndTime None (set_currentTime newTime (set_videoTime newTime s)).

(** ** Scrubbing (ReviewPhase.tsx, lines 166-215)

    The timeline's bounding box is given by its [left] and [width]; the
    pointer by [clientX].  Both refs are mounted. *)
Definition handleScrubMove (cuts : list CutEvent) (left width clientX : Q)
    (s : Player) : Player :=
  if Qle_bool (duration s) 0 then s
  else
    let x := Math_max 0 (Math_min (clientX - left) width) in
    let percentage := x / width in
    let newTime := percentage * duration s in
    let s1 := set_videoTime newTime (set_currentTime newTime s) in
    let cutAtTime :=
      find_first (fun c => js_ge newTime (start c) && js_lt newTime (end_ c)) cuts in
    set_activeCutId (option_map id cutAtTime) s1.

Definition handleScrubStart (cuts : list CutEvent) (left width clientX : Q)
    (s : Player) : Player :=
  let s1 := set_previewEndTime None (set_isScrubbing true s) in
  let s2 :=
    if negb (paused s1) then set_paused true (set_wasPlaying true s1)
    else set_wasPlaying false s1 in
  handleScrubMove cuts left width clientX s2.

Definition handleScrubEnd (s : Player) : Player :=
  if negb (isScrubbing s) then s
  else
    let s1 := set_isScrubbing false s in
    let s2 := if wasPlaying s1 then set_paused false s1 else s1 in
    set_wasPlaying false s2.

(** ** The timeline's time-to-fraction mapping (ReviewPhase.tsx, lines 334, 369)

    The play-head and progress bar are placed at [(currentTime / duration) * 100]
    percent; a scrub maps the fraction [percentage] back to
    [percentage * duration] (line 171). *)
Definition timeline_fraction (time dur : Q) : option Q := js_div time dur.

Definition fraction_to_time (percentage dur : Q) : Q := percentage * dur.

(** ** [toggleCutStatus] (ReviewPhase.tsx, lines 55-57) *)
Definition with_status (st : CutStatus) (c : CutEvent) : CutEvent :=
  mkCut (id c) (type c) (word c) (start c) (end_ c) (confidence c) st.

Definition toggleCutStatus (cid : string) (st : CutStatus) (prev : list CutEvent)
    : list CutEvent :=
  map (fun c => if String.eqb (id c) cid then with_status st c else c) prev.

(** ** Summary figures *)

(** [stats] of the review view (ReviewPhase.tsx, lines 252-256):
    [(count, timeSaved)]. *)
Definition stats (cuts : list CutEvent) : nat * Q :=
  let accepted := filter is_accepted cuts in
  let timeSaved := fold_left (fun acc c => acc + (end_ c - start c)) accepted 0 in
  (List.length accepted, timeSaved).

(** [calculateMetrics] of the application root (part_000, lines 127-136). *)
Definition calculateMetrics (cuts : list CutEvent) (originalDuration : Q)
    : ProcessingMetrics :=
  let acceptedCuts := filter is_accepted cuts in
  let timeSaved :=
    fold_left (fun acc curr => acc + (end_ curr - start curr)) acceptedCuts 0 in
  mkMetrics originalDuration (originalDuration - timeSaved)
    (List.length acceptedCuts) timeSaved.

(** ** Readings of the spec, to be compared with the code *)

(** The spec's sum: [Σ(end − start)] over the accepted intervals. *)
Fixpoint accepted_length_sum (cuts : list CutEvent) : Q :=
  match cuts with
  | [] => 0
  | c :: cs =>
      if is_accepted c then (end_ c - start c) + accepted_length_sum cs
      else accepted_length_sum cs
  end.

(** The spec's [|accepted intervals|]. *)
Fixpoint accepted_count (cuts : list CutEvent) : nat :=
  match cuts with
  | [] => 0
  | c :: cs => if is_accepted c then S (accepted_count cs) else accepted_count cs
  end.

(** The skip policy applied repeatedly, performing at most [n] jumps:
    each round replaces the position by the tick's jump target, and the
    iteration stops at a position no accepted cut contains. *)
Fixpoint skip_iter (n : nat) (cuts : list CutEvent) (t : Q) : Q :=
  match n with
  | O => t
  | S n' =>
      match jump_target cuts t with
      | None => t
      | Some t' => skip_iter n' cuts t'
      end
  end.

(** Accepted cuts that end after [t]: the ones a jump from [t] may still meet. *)
Definition pending (cuts : list CutEvent) (t : Q) : nat :=
  List.length (filter (fun c => is_accepted c && js_lt t (end_ c)) cuts).

(** ** The application root ([src/unnamed/part_000]) *)

Inductive OutputFormat := mp4 | mov | avi | mkv.
Inductive OutputQuality := q_original | q_4k | q_1080p | q_720p | q_480p.

(** [VideoConfig] ([src/types.ts]) *)
Record VideoConfig := mkConfig {
  removeCliches : bool;
  removeFillers : bool;
  removeSilence : bool;
  removeRepetition : bool;
  removeStuttering : bool;
  silenceThreshold : Q;
  customPhrases : list string;
  outputFormat : OutputFormat;
  outputQuality : OutputQuality
}.


Definition is_type (t : CutType) (c : CutEvent) : bool :=
  match t, type c with
  | cliche, cliche | filler, filler | silence, silence
  | repetition, repetition | stutter, stutter => true
  | _, _ => false
  end.

(** The filter callback of [handleStartAnalysis] (lines 79-92), one early
    return per line. *)
Definition keep_cut (config : VideoConfig) (c : CutEvent) : bool :=
  if is_type cliche c && negb (removeCliches config) then false
  else if is_type filler c && negb (removeFillers config) then false
  else if is_type silence c && negb (removeSilence config) then false
  else if is_type silence c && js_lt (end_ c - start c) (silenceThreshold config)
  then false
  else if is_type repetition c && negb (removeRepetition config) then false
  else if is_type stutter c && negb (removeStuttering config) then false
  else true.

Definition filter_cuts (config : VideoConfig) (generated : list CutEvent)
    : list CutEvent :=
  filter (keep_cut config) generated.



(** ** The upload view ([src/components/UploadPhase.tsx]) *)




Definition with_phrases (ps : list string) (c : VideoConfig) : VideoConfig :=
  mkConfig (removeCliches c) (removeFillers c) (removeSilence c)
    (removeRepetition c) (removeStuttering c) (silenceThreshold c) ps
    (outputFormat c) (outputQuality c).

(** The view's own state: [config] (held by the root, updated through
    [setConfig]), [newPhrase], [selectedListId], [isNamingList] and
    [newListName]. *)
Record UploadState := mkUpload {
  config : VideoConfig;
  newPhrase : string;
  selectedListId : string;
  isNamingList : bool;
  newListName : string
}.

Definition set_config (c : VideoConfig) (u : UploadState) : UploadState :=
  mkUpload c (newPhrase u) (selectedListId u) (isNamingList u) (newListName u).


(** [Array.prototype.filter] with the index: [filter((_, i) => i !== index)]. *)
Fixpoint filter_index_from {A} (index i : nat) (l : list A) : list A :=
  match l with
  | [] => []
  | x :: l' =>
      if Nat.eqb i index then filter_index_from index (S i) l'
      else x :: filter_index_from index (S i) l'
  end.

(** [removeCustomPhrase] (lines 88-93) *)
Definition removeCustomPhrase (index : nat) (u : UploadState) : UploadState :=
  set_config
    (with_phrases (filter_index_from index 0 (customPhrases (config u))) (config u))
    u.



(** A selected file: its [size] in bytes and its MIME [type]. *)
Record VideoFile := mkFile { size : Z; ftype : string }.

(** [validateAndSetFile] (lines 44-55): the file it selects, if any. *)
Definition validateAndSetFile (f : VideoFile) : option VideoFile :=
  if Z.ltb (2 * 1024 * 1024 * 1024) (size f) then None
  else if negb (String.prefix "video/" (ftype f)) then None
  else Some f.

(** ** The results view ([src/components/ProcessPhase.tsx], last version of
    the component, lines 434-745) *)

(** The preview player's skip test (lines 501-505). *)
Definition process_skip_pred (time : Q) (c : CutEvent) : bool :=
  is_accepted c && js_ge time (start c) && js_lt time (end_ c - (1 # 10)).

(** One frame of its [checkTime] (lines 495-510) on the video's [paused]
    flag and position: the new position. *)
Definition processCheckTime (cuts : list CutEvent) (paused : bool) (time : Q) : Q :=
  if paused then time
  else match find_first (process_skip_pred time) cuts with
       | Some activeCut => end_ activeCut + (5 # 100)
       | None => time
       end.

(** The preview player's skips applied repeatedly, at most [n] jumps. *)
Fixpoint process_skip_iter (n : nat) (cuts : list CutEvent) (t : Q) : Q :=
  match n with
  | O => t
  | S n' =>
      match find_first (process_skip_pred t) cuts with
      | None => t
      | Some c => process_skip_iter n' cuts (end_ c + (5 # 100))
      end
  end.

(** The [label] field of [getStageInfo] (lines 444-450); the other fields
    are an icon and a detail text. *)
Definition getStageInfo_label (p : Z) : string :=
  if Z.ltb p 20 then "Initializing Engine"
  else if Z.ltb p 45 then "Analyzing Audio"
  else if Z.ltb p 70 then "Trimming Segments"
  else if Z.ltb p 90 then "Stitching & Encoding"
  else "Finalizing".

(** The stages in the order of the tests. *)
Definition stages : list string :=
  ["Initializing Engine"; "Analyzing Audio"; "Trimming Segments";
   "Stitching & Encoding"; "Finalizing"].

(** [Math.random()] as a stream of draws; the state carries the index of
    the next draw. *)
Definition Random := nat -> Q.

(** One run of the rendering-progress effect (lines 456-477) on
    [(progress, isComplete)], with the timer's update applied. *)
Definition progress_step (rnd : Random) (k : nat) (progress : Z)
    (isComplete : bool) : Z * bool * nat :=
  if Z.leb 100 progress then
    (progress, (if negb isComplete then true else isComplete), k)
  else
    let increment := Z.max 1 (Qfloor (rnd k * 5)) in
    let '(increment, k') :=
      if Z.ltb 60 progress && Z.ltb progress 80
      then (Z.max 1 (Qfloor (rnd (S k) * 3)), S (S k))
      else (increment, S k) in
    (Z.min 100 (progress + increment), isComplete, k').

Fixpoint progress_run (n : nat) (rnd : Random) (k : nat) (progress : Z)
    (isComplete : bool) : Z * bool :=
  match n with
  | O => (progress, isComplete)
  | S n' =>
      let '(p', c', k') := progress_step rnd k progress isComplete in
      progress_run n' rnd k' p' c'
  end.

(** ** The report ([src/services/geminiService.ts], lines 15-26) *)

Definition count_type (t : CutType) (cuts : list CutEvent) : nat :=
  List.length (filter (is_type t) cuts).

(** The events of a scrub session: pointer moves (the window's
    [mousemove] listener, [handleScrubMove]) and animation frames
    ([checkTime]). *)
Inductive ScrubEvent := ScrubMove (clientX : Q) | Frame.

Definition scrub_event (cuts : list CutEvent) (left width : Q) (s : Player)
    (ev : ScrubEvent) : Player :=
  match ev with
  | ScrubMove x => handleScrubMove cuts left width x s
  | Frame => checkTime cuts s
  end.

(** A pointer press at [x0], the events [evs], and the release ([mouseup]). *)
Definition scrub_session (cuts : list CutEvent) (left width x0 : Q)
    (evs : list ScrubEvent) (s : Player) : Player :=
  handleScrubEnd
    (fold_left (scrub_event cuts left width) evs
       (handleScrubStart cuts left width x0 s)).

(** ** The mock analysis ([src/services/geminiService.ts], lines 62-120) *)

(** [parseFloat(x.toFixed(2))] on exact numbers: [toFixed] takes the
    integer [n] with [n / 100 - |x|] closest to zero (the larger one on a
    tie), puts the sign back, and leaves numbers of magnitude [10^21] and
    more as they are. *)
Definition toFixed2 (x : Q) : Q :=
  let a := Math_abs x in
  let r := if Qle_bool (inject_Z (10 ^ 21)) a then a
           else Qfloor (a * 100 + (1 # 2)) # 100 in
  if Qle_bool 0 x then r else - r.

Definition fillers : list string := ["Um"; "Uh"; "Like"; "You know"; "Er"].
Definition cliches : list string :=
  ["At the end of the day"; "To be honest"; "Hallelujah"; "Literally";
   "Basically"].
Definition reps : list string :=
  ["I mean, I mean"; "You know, you know"; "It's just, it's just";
   "I was, I was"; "Basically, basically"].
Definition stutters : list string :=
  ["Th-th-the"; "P-p-please"; "W-w-what"; "B-b-but"; "I-I"; "We-we"].

(** [arr[i]] on an integer [i]: [undefined] out of range. *)
Definition js_index (l : list string) (i : Z) : option string :=
  if Z.ltb i 0 then None else nth_error l (Z.to_nat i).

(** [arr[Math.floor(Math.random() * arr.length)]] with draw [k]. *)
Definition pick (rnd : Random) (k : nat) (l : list string) : option string :=
  js_index l (Qfloor (rnd k * inject_Z (Z.of_nat (List.length l)))).

(** The template [`cut-${i}`]. *)
Definition cut_id (i : nat) : string :=
  String.append "cut-" (NilEmpty.string_of_uint (Nat.to_uint i)).

(** One iteration of the loop (lines 71-117) with the next draw at [k];
    returns the cut pushed and the index of the next draw. *)
Definition mock_cut (rnd : Random) (duration : Q) (i k : nat)
    : CutEvent * nat :=
  let start := rnd k * (duration - 5) in
  let typeRoll := rnd (S k) in
  let k := S (S k) in
  let '(ty, wd, len, k) :=
    if js_lt typeRoll (35 # 100) then (filler, pick rnd k fillers, 4 # 10, S k)
    else if js_lt typeRoll (55 # 100) then
      (cliche, pick rnd k cliches, 12 # 10, S k)
    else if js_lt typeRoll (70 # 100) then
      (repetition, pick rnd k reps, 1, S k)
    else if js_lt typeRoll (85 # 100) then
      (stutter, pick rnd k stutters, 5 # 10, S k)
    else (silence, Some "(Silence)", 2, k) in
  (mkCut (cut_id i) ty wd (toFixed2 start) (toFixed2 (start + len))
     ((8 # 10) + rnd k * (19 # 100)) accepted, S k).

(** Iterations [i .. i + n - 1] of the loop. *)
Fixpoint mock_cuts (rnd : Random) (duration : Q) (i n k : nat)
    : list CutEvent :=
  match n with
  | O => []
  | S n' =>
      let '(c, k') := mock_cut rnd duration i k in
      c :: mock_cuts rnd duration (S i) n' k'
  end.

Definition numberOfCuts (duration : Q) : Z :=
  Z.max 5 (Qfloor (duration / 10)).

(** [cuts.sort((a, b) => a.start - b.start)]: the sort is stable (ES2019),
    and for this comparator the stable order is the one of this insertion
    sort, which puts a cut before the first one that does not start
    earlier. *)
Fixpoint insert_by_start (x : CutEvent) (l : list CutEvent) : list CutEvent :=
  match l with
  | [] => [x]
  | y :: l' => if Qle_bool (start x) (start y) then x :: l
               else y :: insert_by_start x l'
  end.

Fixpoint sort_by_start (l : list CutEvent) : list CutEvent :=
  match l with
  | [] => []
  | x :: l' => insert_by_start x (sort_by_start l')
  end.

Definition analyzeVideoMock (rnd : Random) (duration : Q) : list CutEvent :=
  sort_by_start
    (mock_cuts rnd duration 0 (Z.to_nat (numberOfCuts duration)) 0).

(** The length given to each type of cut in the loop. *)
Definition cut_length (t : CutType) : Q :=
  match t with
  | filler => 4 # 10
  | cliche => 12 # 10
  | repetition => 1
  | stutter => 5 # 10
  | silence => 2
  end.

(** [originalDuration || 60] ([src/unnamed/part_000], line 75). *)
Definition mockDuration (originalDuration : Q) : Q :=
  if Qeq_bool originalDuration 0 then 60 else originalDuration.

(** The cuts [handleStartAnalysis] hands to the review (lines 75-92). *)
Definition analysis_cuts (rnd : Random) (config : VideoConfig)
    (originalDuration : Q) : list CutEvent :=
  filter_cuts config (analyzeVideoMock rnd (mockDuration originalDuration)).

(** ** Time labels ([src/components/ReviewPhase.tsx], lines 151-163) *)

(** [a % b] on numbers: the remainder of the division truncated toward
    zero, with the sign of [a] ([b] is a nonzero constant at every use). *)
Definition Qtrunc (q : Q) : Z := if Qle_bool 0 q then Qfloor q else Qceiling q.

Definition js_mod (a b : Q) : Q := a - b * inject_Z (Qtrunc (a / b)).

(** [n.toString()] and [`${n}`] on an integer. *)
Definition js_num_string (z : Z) : string := NilEmpty.string_of_int (Z.to_int z).

Fixpoint zeros (n : nat) : string :=
  match n with
  | O => ""
  | S n' => String "0" (zeros n')
  end.

(** [s.padStart(n, '0')] *)
Definition padStart (n : nat) (s : string) : string :=
  String.append (zeros (n - String.length s)) s.

Definition formatTime (seconds : Q) : string :=
  let mins := Qfloor (seconds / 60) in
  let secs := Qfloor (js_mod seconds 60) in
  String.append (js_num_string mins)
    (String.append ":" (padStart 2 (js_num_string secs))).

Definition formatTimeExact (seconds : Q) : string :=
  let mins := Qfloor (seconds / 60) in
  let secs := Qfloor (js_mod seconds 60) in
  let ms := Qfloor (js_mod seconds 1 * 1000) in
  String.append (js_num_string mins)
    (String.append ":" (String.append (padStart 2 (js_num_string secs))
       (String.append ":" (padStart 3 (js_num_string ms))))).

(** ** Concrete inputs *)

Definition cut_at (i : string) (s e : Q) (st : CutStatus) : CutEvent :=
  mkCut i filler None s e (9 # 10) st.

Definition player_at (dur t : Q) : Player :=
  mkPlayer true t dur None false false None false t.

(** The overlapping pair of the spec's tie-break example, in this order. *)
Definition overlap_cuts : list CutEvent :=
  [cut_at "a" 5 8 accepted; cut_at "b" 6 12 accepted].

(** The intervals of the spec's metrics example. *)
Definition metrics_cuts : list CutEvent :=
  [cut_at "a" 2 4 accepted; cut_at "b" 10 (21 # 2) accepted;
   cut_at "c" 20 21 rejected].

(** A paused player at position [0] whose video has duration [dur]. *)
Definition idle_player (dur : Q) : Player :=
  mkPlayer false 0 dur None false false None true 0.

(** An accepted cut that runs past the end of a 10-second video. *)
Definition overrun_cuts : list CutEvent := [cut_at "a" 9 12 accepted].

(** ** Generic lemmas *)

Lemma js_ge_iff (a b : Q) : js_ge a b = true <-> b <= a.
Proof. unfold js_ge. apply Qle_bool_iff. Qed.

Lemma js_lt_iff (a b : Q) : js_lt a b = true <-> a < b.
Proof.
  unfold js_lt. rewrite negb_true_iff. split.
  - intro H. apply Qnot_le_lt. intro H'. apply Qle_bool_iff in H'. congruence.
  - intro H. destruct (Qle_bool b a) eqn:E; [|reflexivity].
    apply Qle_bool_iff in E. exfalso. apply (Qlt_not_le a b); assumption.
Qed.

Lemma skip_pred_true_iff (c : CutEvent) (t : Q) :
  skip_pred t c = true <-> is_accepted c = true /\ start c <= t /\ t < end_ c.
Proof. unfold skip_pred. rewrite !andb_true_iff, js_ge_iff, js_lt_iff. tauto. Qed.

Lemma checkTime_playing_jump (cuts : list CutEvent) (s : Player) (c : CutEvent) :
  isScrubbing s = false -> paused s = false -> previewEndTime s = None ->
  current_cut cuts (videoTime s) = Some c ->
  videoTime (checkTime cuts s) = end_ c.
Proof.
  intros Hs Hp Hpe Hc. unfold checkTime. rewrite Hs, Hp, Hpe. simpl.
  rewrite Hc. reflexivity.
Qed.

Lemma Math_max_ge_l (a b : Q) : a <= Math_max a b.
Proof.
  unfold Math_max. destruct (Qle_bool a b) eqn:E.
  - apply Qle_bool_iff. exact E.
  - apply Qle_refl.
Qed.

Lemma Math_max_cases (a b : Q) : Math_max a b = a \/ Math_max a b = b.
Proof. unfold Math_max. destruct (Qle_bool a b); auto. Qed.

Lemma Math_min_le_l (a b : Q) : Math_min a b <= a.
Proof.
  unfold Math_min. destruct (Qle_bool a b) eqn:E.
  - apply Qle_refl.
  - apply Qlt_le_weak. apply Qnot_le_lt. intro H.
    apply Qle_bool_iff in H. congruence.
Qed.

Lemma Math_min_le_r (a b : Q) : Math_min a b <= b.
Proof.
  unfold Math_min. destruct (Qle_bool a b) eqn:E.
  - apply Qle_bool_iff. exact E.
  - apply Qle_refl.
Qed.

(** [Math.max(0, Math.min(hi, v))] lies in [[0, hi]] when [0 <= hi]. *)
Lemma clamp_range (hi v : Q) :
  0 <= hi -> 0 <= Math_max 0 (Math_min hi v) /\ Math_max 0 (Math_min hi v) <= hi.
Proof.
  intro Hhi. split; [apply Math_max_ge_l|].
  destruct (Math_max_cases 0 (Math_min hi v)) as [E|E]; rewrite E.
  - exact Hhi.
  - apply Math_min_le_l.
Qed.

Lemma find_first_some {A} (p : A -> bool) (l : list A) (x : A) :
  find_first p l = Some x ->
  exists pre post, l = pre ++ x :: post /\ p x = true /\
                   Forall (fun y => p y = false) pre.
Proof.
  induction l as [|y l IH]; simpl; [discriminate|].
  destruct (p y) eqn:Ey.
  - intros [= <-]. exists [], l. repeat split; auto.
  - intros H. destruct (IH H) as (pre & post & -> & Hx & Hpre).
    exists (y :: pre), post. repeat split; auto.
Qed.

Lemma find_first_none {A} (p : A -> bool) (l : list A) :
  (forall x, In x l -> p x = false) -> find_first p l = None.
Proof.
  induction l as [|y l IH]; simpl; intros H; [reflexivity|].
  rewrite (H y (or_introl eq_refl)). apply IH. intros x Hx. apply H. now right.
Qed.

Lemma fold_time_saved (l : list CutEvent) (a : Q) :
  fold_left (fun acc c => acc + (end_ c - start c)) l a
  == a + fold_right (fun c acc => (end_ c - start c) + acc) 0 l.
Proof.
  revert a. induction l as [|c l IH]; intro a; simpl.
  - ring.
  - rewrite IH. ring.
Qed.

Lemma fold_filter_accepted (cuts : list CutEvent) :
  fold_right (fun c acc => (end_ c - start c) + acc) 0 (filter is_accepted cuts)
  = accepted_length_sum cuts.
Proof.
  induction cuts as [|c cs IH]; simpl; [reflexivity|].
  destruct (is_accepted c); simpl; rewrite IH; reflexivity.
Qed.

Lemma length_filter_accepted (cuts : list CutEvent) :
  List.length (filter is_accepted cuts) = accepted_count cuts.
Proof.
  induction cuts as [|c cs IH]; simpl; [reflexivity|].
  destruct (is_accepted c); simpl; rewrite IH; reflexivity.
Qed.

Lemma filter_length_le {A} (p q : A -> bool) (l : list A) :
  (forall x, In x l -> p x = true -> q x = true) ->
  (List.length (filter p l) <= List.length (filter q l))%nat.
Proof.
  induction l as [|y l IH]; simpl; intros H; [lia|].
  assert (IH' : (List.length (filter p l) <= List.length (filter q l))%nat)
    by (apply IH; intros x Hx; apply H; now right).
  destruct (p y) eqn:Ep.
  - rewrite (H y (or_introl eq_refl) Ep). simpl. lia.
  - destruct (q y); simpl; lia.
Qed.

Lemma filter_length_lt {A} (p q : A -> bool) (l : list A) (c : A) :
  (forall x, In x l -> p x = true -> q x = true) ->
  In c l -> q c = true -> p c = false ->
  (List.length (filter p l) < List.length (filter q l))%nat.
Proof.
  induction l as [|y l IH]; simpl; intros H Hc Hq Hp; [contradiction|].
  assert (Hl : forall x, In x l -> p x = true -> q x = true)
    by (intros x Hx; apply H; now right).
  destruct Hc as [<-|Hc].
  - rewrite Hp, Hq. simpl. pose proof (filter_length_le p q l Hl). lia.
  - specialize (IH Hl Hc Hq Hp). destruct (p y) eqn:Ep.
    + rewrite (H y (or_introl eq_refl) Ep). simpl. lia.
    + destruct (q y); simpl; lia.
Qed.

(** ** The skip policy *)

(** C2: containment is half-open.  The skip test of the tick reports that
    [c] contains [t] exactly when [c] is accepted and [c.start <= t < c.end];
    in particular [t = c.end] is never contained. *)
Theorem skip_pred_half_open (c : CutEvent) (t : Q) :
  (skip_pred t c = true <->
     is_accepted c = true /\ start c <= t /\ t < end_ c) /\
  skip_pred (end_ c) c = false.
Proof.
  split; [apply skip_pred_true_iff|]. unfold skip_pred.
  destruct (js_lt (end_ c) (end_ c)) eqn:E.
  - apply js_lt_iff in E. exfalso. apply (Qlt_irrefl _ E).
  - rewrite !andb_false_r. reflexivity.
Qed.

(** C1 (counterexample): for the accepted intervals [{5,8}] and [{6,12}],
    in this order, the tick at [t = 7] jumps to [8], not to the later end [12]. *)
Lemma overlap_jump_is_first_end :
  jump_target overlap_cuts 7 = Some 8 /\ ~ (8 == 12) /\
  videoTime (checkTime overlap_cuts (player_at 100 7)) = 8.
Proof.
  split; [reflexivity|]. split; [|reflexivity].
  unfold Qeq. simpl. discriminate.
Qed.

(** C1 (amended): during Playing (not scrubbing, not paused, no preview
    bound) the tick jumps to the end of the FIRST accepted cut, in list
    order, that contains the position: every cut before it fails the test. *)
Theorem checkTime_jumps_to_first_containing (cuts : list CutEvent) (s : Player)
    (c : CutEvent) :
  isScrubbing s = false -> paused s = false -> previewEndTime s = None ->
  current_cut cuts (videoTime s) = Some c ->
  videoTime (checkTime cuts s) = end_ c /\
  exists pre post, cuts = pre ++ c :: post /\
    is_accepted c = true /\ start c <= videoTime s /\ videoTime s < end_ c /\
    Forall (fun x => skip_pred (videoTime s) x = false) pre.
Proof.
  intros Hs Hp Hpe Hc. split.
  - apply checkTime_playing_jump; assumption.
  - destruct (find_first_some _ _ _ Hc) as (pre & post & Heq & Hx & Hpre).
    apply skip_pred_true_iff in Hx.
    exists pre, post. tauto.
Qed.

Lemma checkTime_jumps_to_first_containing_witness :
  videoTime (checkTime overlap_cuts (player_at 100 7)) = 8 /\
  exists pre post, overlap_cuts = pre ++ cut_at "a" 5 8 accepted :: post /\
    is_accepted (cut_at "a" 5 8 accepted) = true /\ 5 <= 7 /\ 7 < 8 /\
    Forall (fun x => skip_pred 7 x = false) pre.
Proof.
  apply (checkTime_jumps_to_first_containing overlap_cuts (player_at 100 7)
           (cut_at "a" 5 8 accepted)); reflexivity.
Defined.

(** ** The summary figures *)

(** C6: [calculateMetrics] gives [timeSaved = Σ(end − start)] over the
    accepted cuts, [cutsCount] = the number of accepted cuts and
    [finalDuration = originalDuration − timeSaved]; on the spec's example
    ([2..4] and [10..10.5] accepted, [20..21] rejected, 60 s) it gives
    [2.5], [2] and [57.5]. *)
Theorem calculateMetrics_spec (cuts : list CutEvent) (od : Q) :
  timeSaved (calculateMetrics cuts od) == accepted_length_sum cuts /\
  cutsCount (calculateMetrics cuts od) = accepted_count cuts /\
  finalDuration (calculateMetrics cuts od) == od - accepted_length_sum cuts /\
  originalDuration (calculateMetrics cuts od) = od /\
  (timeSaved (calculateMetrics metrics_cuts 60) == 5 # 2 /\
   cutsCount (calculateMetrics metrics_cuts 60) = 2%nat /\
   finalDuration (calculateMetrics metrics_cuts 60) == 115 # 2).
Proof.
  assert (Hts : forall l, timeSaved (calculateMetrics l od) == accepted_length_sum l).
  { intro l. simpl. rewrite fold_time_saved, fold_filter_accepted. ring. }
  split; [apply Hts|]. split.
  { simpl. apply length_filter_accepted. }
  split.
  { simpl. rewrite fold_time_saved, fold_filter_accepted. ring. }
  split; [reflexivity|].
  repeat split; reflexivity.
Qed.

(** C9: the review view's [stats] and the root's [calculateMetrics] agree
    on the accepted-cut count and the time saved, for every cut list. *)
Theorem stats_agree_with_metrics (cuts : list CutEvent) (od : Q) :
  fst (stats cuts) = cutsCount (calculateMetrics cuts od) /\
  snd (stats cuts) = timeSaved (calculateMetrics cuts od).
Proof. split; reflexivity. Qed.

(** ** Toggling a cut *)

(** C10: [toggleCutStatus id st] keeps the list's length and order; the
    cut with that id gets status [st] and keeps every other field, and every
    other cut is left as it was. *)
Theorem toggleCutStatus_frame (cid : string) (st : CutStatus)
    (prev : list CutEvent) :
  List.length (toggleCutStatus cid st prev) = List.length prev /\
  forall i c, nth_error prev i = Some c ->
    exists c', nth_error (toggleCutStatus cid st prev) i = Some c' /\
      (id c = cid ->
         status c' = st /\ id c' = id c /\ type c' = type c /\
         word c' = word c /\ start c' = start c /\ end_ c' = end_ c /\
         confidence c' = confidence c) /\
      (id c <> cid -> c' = c).
Proof.
  split.
  - unfold toggleCutStatus. apply length_map.
  - intros i c Hi. unfold toggleCutStatus. rewrite nth_error_map, Hi. simpl.
    eexists. split; [reflexivity|]. split.
    + intro H. subst cid. rewrite String.eqb_refl. simpl. repeat split; reflexivity.
    + intro Hne. destruct (String.eqb (id c) cid) eqn:E; [|reflexivity].
      apply String.eqb_eq in E. contradiction.
Qed.

(** ** Convergence of the skip policy *)

Lemma pending_zero_none (cuts : list CutEvent) (t : Q) :
  pending cuts t = 0%nat -> current_cut cuts t = None.
Proof.
  unfold pending, current_cut. intro H. apply length_zero_iff_nil in H.
  apply find_first_none. intros x Hx.
  destruct (skip_pred t x) eqn:E; [|reflexivity]. exfalso.
  apply skip_pred_true_iff in E as (Ha & _ & Hlt).
  assert (Hin : In x (filter (fun c => is_accepted c && js_lt t (end_ c)) cuts)).
  { apply filter_In. split; [exact Hx|]. rewrite Ha. simpl.
    apply js_lt_iff. exact Hlt. }
  rewrite H in Hin. exact Hin.
Qed.

Lemma pending_decreases (cuts : list CutEvent) (t : Q) (c : CutEvent) :
  current_cut cuts t = Some c -> (pending cuts (end_ c) < pending cuts t)%nat.
Proof.
  intro Hc. destruct (find_first_some _ _ _ Hc) as (pre & post & Heq & Hx & _).
  apply skip_pred_true_iff in Hx as (Ha & _ & Hlt).
  unfold pending. apply filter_length_lt with (c := c).
  - intros x _ Hp. apply andb_true_iff in Hp as [Hax Hlx].
    rewrite Hax. simpl. apply js_lt_iff. apply js_lt_iff in Hlx.
    apply Qlt_trans with (end_ c); assumption.
  - rewrite Heq. apply in_or_app. right. left. reflexivity.
  - rewrite Ha. simpl. apply js_lt_iff. exact Hlt.
  - destruct (js_lt (end_ c) (end_ c)) eqn:E.
    + apply js_lt_iff in E. exfalso. apply (Qlt_irrefl _ E).
    + apply andb_false_r.
Qed.

Lemma pending_le_accepted (cuts : list CutEvent) (t : Q) :
  (pending cuts t <= accepted_count cuts)%nat.
Proof.
  unfold pending. rewrite <- length_filter_accepted.
  apply filter_length_le. intros x _ H. apply andb_true_iff in H. tauto.
Qed.

Lemma skip_iter_stops (cuts : list CutEvent) (n : nat) (t : Q) :
  (pending cuts t <= n)%nat -> current_cut cuts (skip_iter n cuts t) = None.
Proof.
  revert t. induction n as [|n IH]; intros t Hn; simpl.
  - apply pending_zero_none. lia.
  - unfold jump_target. destruct (current_cut cuts t) as [c|] eqn:Hc; simpl.
    + apply IH. pose proof (pending_decreases cuts t c Hc). lia.
    + exact Hc.
Qed.

(** C7: from every position, at most [N] jumps of the skip policy, [N] the
    number of accepted cuts, reach a position that no accepted cut contains;
    overlapping or adjacent cuts cause no endless jumping. *)
Theorem skip_policy_converges (cuts : list CutEvent) (t : Q) :
  current_cut cuts (skip_iter (accepted_count cuts) cuts t) = None.
Proof. apply skip_iter_stops, pending_le_accepted. Qed.

(** ** Bounded preview *)

(** C5: a preview of [c] seeks to [max(0, c.start − 1)], sets the bound
    [min(duration, c.end + 1)] and starts playback; a tick while a bound is
    set never moves the video position (no skip-jump, even inside an
    accepted cut); a tick at or past the bound pauses and clears it, and a
    tick before the bound keeps playing.  On the spec's example
    ([{10,12}] accepted, duration 100) the preview starts at 9, plays
    through [10.5] without a jump and stops at 13. *)
Theorem previewCut_bounded (cuts : list CutEvent) (c : CutEvent) (s : Player) :
  (videoTime (previewCut c s) = Math_max 0 (start c - 1) /\
   previewEndTime (previewCut c s) = Some (Math_min (duration s) (end_ c + 1)) /\
   paused (previewCut c s) = false /\ isPlaying (previewCut c s) = true) /\
  (forall s' pe, previewEndTime s' = Some pe ->
     videoTime (checkTime cuts s') = videoTime s') /\
  (forall s' pe, isScrubbing s' = false -> paused s' = false ->
     previewEndTime s' = Some pe -> pe <= videoTime s' ->
     paused (checkTime cuts s') = true /\ isPlaying (checkTime cuts s') = false /\
     previewEndTime (checkTime cuts s') = None) /\
  (forall s' pe, isScrubbing s' = false -> paused s' = false ->
     previewEndTime s' = Some pe -> videoTime s' < pe ->
     paused (checkTime cuts s') = false /\ previewEndTime (checkTime cuts s') = Some pe) /\
  (let cs := [cut_at "p" 10 12 accepted] in
   let s0 := previewCut (cut_at "p" 10 12 accepted) (player_at 100 50) in
   videoTime s0 = 9 /\ previewEndTime s0 = Some 13 /\
   videoTime (checkTime cs (set_videoTime (21 # 2) s0)) = 21 # 2 /\
   previewEndTime (checkTime cs (set_videoTime (21 # 2) s0)) = Some 13 /\
   paused (checkTime cs (set_videoTime 13 s0)) = true /\
   previewEndTime (checkTime cs (set_videoTime 13 s0)) = None).
Proof.
  split; [repeat split; reflexivity|].
  split.
  { intros s' pe Hpe. unfold checkTime. rewrite Hpe.
    destruct (isScrubbing s'); [reflexivity|].
    destruct (negb (paused s')).
    - destruct (js_ge (videoTime s') pe); [reflexivity|].
      destruct (find_first _ cuts); reflexivity.
    - destruct (Bool.eqb _ _); reflexivity. }
  split.
  { intros s' pe Hs Hp Hpe Hle. unfold checkTime. rewrite Hs, Hp, Hpe. simpl.
    replace (js_ge (videoTime s') pe) with true
      by (symmetry; apply js_ge_iff; exact Hle).
    repeat split; reflexivity. }
  split.
  { intros s' pe Hs Hp Hpe Hlt. unfold checkTime. rewrite Hs, Hp, Hpe. simpl.
    destruct (js_ge (videoTime s') pe) eqn:E.
    - apply js_ge_iff in E. exfalso. apply (Qlt_not_le _ _ Hlt E).
    - destruct (find_first _ cuts); simpl; rewrite Hp, Hpe; split; reflexivity. }
  repeat split; reflexivity.
Qed.

(** ** Position writes and their range *)

Lemma clamp_range_r (v hi : Q) :
  0 <= hi -> 0 <= Math_max 0 (Math_min v hi) /\ Math_max 0 (Math_min v hi) <= hi.
Proof.
  intro Hhi. split; [apply Math_max_ge_l|].
  destruct (Math_max_cases 0 (Math_min v hi)) as [E|E]; rewrite E.
  - exact Hhi.
  - apply Math_min_le_r.
Qed.

Lemma scrub_time_range (x width d : Q) :
  0 < width -> 0 < d -> 0 <= x -> x <= width ->
  0 <= x / width * d /\ x / width * d <= d.
Proof.
  intros Hw Hd Hx0 Hxw.
  assert (H0 : 0 <= x / width)
    by (apply Qle_shift_div_l; [exact Hw | rewrite Qmult_0_l; exact Hx0]).
  assert (H1 : x / width <= 1)
    by (apply Qle_shift_div_r; [exact Hw | rewrite Qmult_1_l; exact Hxw]).
  split.
  - apply Qmult_le_0_compat; [exact H0 | apply Qlt_le_weak; exact Hd].
  - rewrite <- (Qmult_1_l d) at 2. apply Qmult_le_compat_r;
      [exact H1 | apply Qlt_le_weak; exact Hd].
Qed.

(** C3 (counterexample): an accepted cut [9..12] on a 10-second video; the
    tick at [9.5] assigns the position [12], past the duration. *)
Lemma forced_jump_unclamped :
  videoTime (checkTime overrun_cuts (player_at 10 (19 # 2))) = 12 /\
  duration (checkTime overrun_cuts (player_at 10 (19 # 2))) = 10 /\
  ~ (videoTime (checkTime overrun_cuts (player_at 10 (19 # 2))) <=
     duration (checkTime overrun_cuts (player_at 10 (19 # 2)))).
Proof.
  split; [reflexivity|]. split; [reflexivity|].
  rewrite <- Qle_bool_iff. vm_compute. discriminate.
Qed.

(** C3 (amended): the relative skip ([skip]) and the scrub move assign a
    position clamped to [[0, duration]] (the scrub for a laid-out timeline,
    [width > 0]); a preview seeks to a position clamped below at [0] only;
    the forced jump of a Playing tick assigns the containing accepted
    cut's [end] as it is, which lies past the position. *)
Theorem position_writes_clamped (cuts : list CutEvent) (s : Player) :
  (forall sec, 0 <= duration s ->
     0 <= videoTime (skip sec s) /\ videoTime (skip sec s) <= duration s /\
     currentTime (skip sec s) = videoTime (skip sec s)) /\
  (forall left width clientX, 0 < width -> 0 < duration s ->
     0 <= videoTime (handleScrubMove cuts left width clientX s) /\
     videoTime (handleScrubMove cuts left width clientX s) <= duration s) /\
  (forall c, 0 <= videoTime (previewCut c s)) /\
  (forall c, isScrubbing s = false -> paused s = false ->
     previewEndTime s = None -> current_cut cuts (videoTime s) = Some c ->
     videoTime (checkTime cuts s) = end_ c /\ videoTime s < end_ c).
Proof.
  split.
  { intros sec Hd. simpl.
    destruct (clamp_range (duration s) (videoTime s + sec) Hd).
    repeat split; assumption || reflexivity. }
  split.
  { intros left width clientX Hw Hd. unfold handleScrubMove.
    destruct (Qle_bool (duration s) 0) eqn:E.
    - apply Qle_bool_iff in E. exfalso. apply (Qlt_not_le _ _ Hd E).
    - simpl. destruct (clamp_range_r (clientX - left) width) as [Hx0 Hxw];
        [apply Qlt_le_weak; exact Hw|].
      apply scrub_time_range; assumption. }
  split.
  { intro c. apply Math_max_ge_l. }
  intros c Hs Hp Hpe Hc.
  split; [apply checkTime_playing_jump; assumption|].
  destruct (find_first_some _ _ _ Hc) as (pre & post & _ & Hx & _).
  apply skip_pred_true_iff in Hx. tauto.
Qed.

(** ** Commands before the duration is known *)

(** C4 (counterexample): a preview is not rejected while the duration is
    [0], nor for a cut starting past the duration: both start playback. *)
Lemma preview_not_rejected :
  duration (idle_player 0) = 0 /\ paused (idle_player 0) = true /\
  paused (previewCut (cut_at "a" 2 3 accepted) (idle_player 0)) = false /\
  previewCut (cut_at "a" 2 3 accepted) (idle_player 0) <> idle_player 0 /\
  (duration (idle_player 10) < start (cut_at "b" 20 21 accepted) /\
   paused (previewCut (cut_at "b" 20 21 accepted) (idle_player 10)) = false /\
   videoTime (previewCut (cut_at "b" 20 21 accepted) (idle_player 10)) = 19).
Proof.
  split; [reflexivity|]. split; [reflexivity|]. split; [reflexivity|].
  split; [discriminate|].
  split; [|split; reflexivity].
  rewrite <- js_lt_iff. reflexivity.
Qed.

(** C4 (amended): with the duration [0] (not yet known) a scrub move is a
    no-op, and a scrub start only enters scrubbing (pausing, clearing the
    preview bound) without a seek; a preview is not guarded by the
    duration: it always seeks to [max(0, c.start − 1)], sets the bound
    [min(duration, c.end + 1)] and starts playback. *)
Theorem duration_guards (cuts : list CutEvent) (c : CutEvent) (s : Player) :
  (forall left width clientX, duration s <= 0 ->
     handleScrubMove cuts left width clientX s = s) /\
  (forall left width clientX, duration s <= 0 ->
     videoTime (handleScrubStart cuts left width clientX s) = videoTime s /\
     currentTime (handleScrubStart cuts left width clientX s) = currentTime s /\
     isScrubbing (handleScrubStart cuts left width clientX s) = true /\
     paused (handleScrubStart cuts left width clientX s) = true /\
     previewEndTime (handleScrubStart cuts left width clientX s) = None) /\
  (paused (previewCut c s) = false /\
   videoTime (previewCut c s) = Math_max 0 (start c - 1) /\
   previewEndTime (previewCut c s) = Some (Math_min (duration s) (end_ c + 1))).
Proof.
  assert (Hmove : forall s' left width clientX, duration s' <= 0 ->
            handleScrubMove cuts left width clientX s' = s').
  { intros s' left width clientX Hd. unfold handleScrubMove.
    replace (Qle_bool (duration s') 0) with true
      by (symmetry; apply Qle_bool_iff; exact Hd).
    reflexivity. }
  split; [intros; apply Hmove; assumption|].
  split; [|repeat split; reflexivity].
  intros left width clientX Hd. unfold handleScrubStart.
  destruct (negb (paused _)) eqn:Ep;
    rewrite Hmove by exact Hd; simpl in *; repeat split; try reflexivity.
  apply negb_false_iff in Ep. exact Ep.
Qed.

(** ** The timeline mapping *)

(** C8 (counterexample): with the duration [0] the play-head's fraction
    [currentTime / duration] is a division by zero, not [0]. *)
Lemma fraction_divides_by_zero :
  timeline_fraction 0 0 = None /\ timeline_fraction 0 0 <> Some 0.
Proof. split; [reflexivity | discriminate]. Qed.

(** C8 (amended): for [duration > 0], mapping a time to its fraction and
    back gives the time again (exactly, in rational arithmetic), and a time
    in [[0, duration]] has its fraction in [[0, 1]]; for [duration = 0] the
    fraction is a division by zero (only the scrub and hover paths guard
    it by [duration > 0]). *)
Theorem timeline_mapping_roundtrip (t d : Q) :
  (0 < d -> exists f, timeline_fraction t d = Some f /\
     fraction_to_time f d == t /\ (0 <= t -> t <= d -> 0 <= f /\ f <= 1)) /\
  timeline_fraction t 0 = None.
Proof.
  split; [|reflexivity].
  intro Hd. assert (Hnz : ~ d == 0)
    by (intro E; rewrite E in Hd; apply (Qlt_irrefl 0 Hd)).
  exists (t / d). split.
  - unfold timeline_fraction, js_div.
    destruct (Qeq_bool d 0) eqn:E; [|reflexivity].
    apply Qeq_bool_iff in E. contradiction.
  - split.
    + unfold fraction_to_time. rewrite Qmult_comm. apply Qmult_div_r. exact Hnz.
    + intros H0 H1. split.
      * apply Qle_shift_div_l; [exact Hd | rewrite Qmult_0_l; exact H0].
      * apply Qle_shift_div_r; [exact Hd | rewrite Qmult_1_l; exact H1].
Qed.

(** ** Extra: the root's cut filter *)

Lemma keep_cut_by_type (cfg : VideoConfig) (c : CutEvent) :
  keep_cut cfg c =
  match type c with
  | cliche => removeCliches cfg
  | filler => removeFillers cfg
  | silence => removeSilence cfg &&
               negb (js_lt (end_ c - start c) (silenceThreshold cfg))
  | repetition => removeRepetition cfg
  | stutter => removeStuttering cfg
  end.
Proof.
  unfold keep_cut, is_type. destruct (type c); simpl.
  - destruct (removeCliches cfg); reflexivity.
  - destruct (removeFillers cfg); reflexivity.
  - destruct (removeSilence cfg), (js_lt (end_ c - start c) (silenceThreshold cfg));
      reflexivity.
  - destruct (removeRepetition cfg); reflexivity.
  - destruct (removeStuttering cfg); reflexivity.
Qed.

(** X1: [handleStartAnalysis] keeps exactly the generated cuts whose type
    is switched on in the configuration, and among silences only those at
    least [silenceThreshold] long; the kept cuts keep their order. *)
Theorem filter_cuts_spec (cfg : VideoConfig) (generated : list CutEvent)
    (c : CutEvent) :
  (In c (filter_cuts cfg generated) <->
   In c generated /\
   match type c with
   | cliche => removeCliches cfg = true
   | filler => removeFillers cfg = true
   | silence => removeSilence cfg = true /\
                silenceThreshold cfg <= end_ c - start c
   | repetition => removeRepetition cfg = true
   | stutter => removeStuttering cfg = true
   end) /\
  filter_cuts cfg generated = filter (keep_cut cfg) generated.
Proof.
  split; [|reflexivity]. unfold filter_cuts. rewrite filter_In, keep_cut_by_type.
  apply and_iff_compat_l. destruct (type c); try reflexivity.
  rewrite andb_true_iff, negb_true_iff. apply and_iff_compat_l. split.
  - intro E. apply Qnot_lt_le. intro H. apply js_lt_iff in H. congruence.
  - intro H. destruct (js_lt (end_ c - start c) (silenceThreshold cfg)) eqn:E;
      [|reflexivity].
    apply js_lt_iff in E. exfalso. apply (Qlt_not_le _ _ E H).
Qed.

(** ** Extra: saved phrase lists *)







(** ** Extra: the custom phrases of the upload view *)







Lemma filter_index_from_spec {A} (index : nat) (l : list A) (i : nat) :
  filter_index_from index i l =
  if Nat.leb i index then firstn (index - i) l ++ skipn (S (index - i)) l
  else l.
Proof.
  revert i. induction l as [|x l IH]; intro i; simpl.
  - destruct (Nat.leb i index), (index - i)%nat; reflexivity.
  - rewrite IH. destruct (Nat.eqb i index) eqn:E.
    + apply Nat.eqb_eq in E. subst i. rewrite Nat.leb_refl, Nat.sub_diag.
      replace (Nat.leb (S index) index) with false
        by (symmetry; apply Nat.leb_gt; lia).
      reflexivity.
    + apply Nat.eqb_neq in E. destruct (Nat.leb i index) eqn:L.
      * apply Nat.leb_le in L.
        replace (Nat.leb (S i) index) with true by (symmetry; apply Nat.leb_le; lia).
        replace (index - i)%nat with (S (index - S i)) by lia. reflexivity.
      * apply Nat.leb_gt in L.
        replace (Nat.leb (S i) index) with false by (symmetry; apply Nat.leb_gt; lia).
        reflexivity.
Qed.


(** X4: [removeCustomPhrase index] removes exactly the phrase at [index]
    (the list shrinks by one) and leaves the list unchanged when [index] is
    out of range. *)
Theorem removeCustomPhrase_spec (index : nat) (u : UploadState) :
  customPhrases (config (removeCustomPhrase index u)) =
    firstn index (customPhrases (config u)) ++
    skipn (S index) (customPhrases (config u)) /\
  ((index < List.length (customPhrases (config u)))%nat ->
     List.length (customPhrases (config (removeCustomPhrase index u))) =
     pred (List.length (customPhrases (config u)))) /\
  ((List.length (customPhrases (config u)) <= index)%nat ->
     customPhrases (config (removeCustomPhrase index u)) = customPhrases (config u)).
Proof.
  assert (Hspec : customPhrases (config (removeCustomPhrase index u)) =
    firstn index (customPhrases (config u)) ++
    skipn (S index) (customPhrases (config u))).
  { simpl. rewrite filter_index_from_spec, Nat.sub_0_r. reflexivity. }
  split; [exact Hspec|]. rewrite Hspec. split.
  - intro H. rewrite length_app, length_firstn, length_skipn. lia.
  - intro H. rewrite firstn_all2 by exact H.
    rewrite skipn_all2 by lia. apply app_nil_r.
Qed.




(** ** Extra: the results view's preview player *)

Definition process_pending (cuts : list CutEvent) (t : Q) : nat :=
  List.length
    (filter (fun c => is_accepted c && js_lt t (end_ c - (1 # 10))) cuts).

Lemma process_skip_pred_true_iff (c : CutEvent) (t : Q) :
  process_skip_pred t c = true <->
  is_accepted c = true /\ start c <= t /\ t < end_ c - (1 # 10).
Proof.
  unfold process_skip_pred. rewrite !andb_true_iff, js_ge_iff, js_lt_iff. tauto.
Qed.

Lemma process_pending_zero (cuts : list CutEvent) (t : Q) :
  process_pending cuts t = 0%nat -> find_first (process_skip_pred t) cuts = None.
Proof.
  unfold process_pending. intro H. apply length_zero_iff_nil in H.
  apply find_first_none. intros x Hx.
  destruct (process_skip_pred t x) eqn:E; [|reflexivity]. exfalso.
  apply process_skip_pred_true_iff in E as (Ha & _ & Hlt).
  assert (Hin : In x (filter (fun c => is_accepted c &&
                                       js_lt t (end_ c - (1 # 10))) cuts)).
  { apply filter_In. split; [exact Hx|]. rewrite Ha. apply js_lt_iff. exact Hlt. }
  rewrite H in Hin. exact Hin.
Qed.

Lemma process_pending_decreases (cuts : list CutEvent) (t : Q) (c : CutEvent) :
  find_first (process_skip_pred t) cuts = Some c ->
  (process_pending cuts (end_ c + (5 # 100)) < process_pending cuts t)%nat.
Proof.
  intro Hc. destruct (find_first_some _ _ _ Hc) as (pre & post & Heq & Hx & _).
  apply process_skip_pred_true_iff in Hx as (Ha & _ & Hlt).
  unfold process_pending. apply filter_length_lt with (c := c).
  - intros x _ Hp. apply andb_true_iff in Hp as [Hax Hlx].
    rewrite Hax. simpl. apply js_lt_iff. apply js_lt_iff in Hlx.
    apply Qlt_trans with (end_ c - (1 # 10)); [exact Hlt|].
    apply Qlt_trans with (end_ c + (5 # 100)); [|exact Hlx].
    rewrite <- Qplus_lt_r with (z := (1 # 10) - end_ c). ring_simplify.
    reflexivity.
  - rewrite Heq. apply in_or_app. right. left. reflexivity.
  - rewrite Ha. simpl. apply js_lt_iff. exact Hlt.
  - destruct (js_lt (end_ c + (5 # 100)) (end_ c - (1 # 10))) eqn:E.
    + apply js_lt_iff in E. exfalso.
      rewrite <- Qplus_lt_l with (z := - end_ c) in E. ring_simplify in E.
      discriminate E.
    + apply andb_false_r.
Qed.

Lemma process_skip_iter_stops (cuts : list CutEvent) (n : nat) (t : Q) :
  (process_pending cuts t <= n)%nat ->
  find_first (process_skip_pred (process_skip_iter n cuts t)) cuts = None.
Proof.
  revert t. induction n as [|n IH]; intros t Hn; simpl.
  - apply process_pending_zero. lia.
  - destruct (find_first (process_skip_pred t) cuts) as [c|] eqn:Hc.
    + apply IH. pose proof (process_pending_decreases cuts t c Hc). lia.
    + exact Hc.
Qed.

(** X6: the results view's preview player, which skips an accepted cut
    while the position is in [[start, end − 0.1)] by jumping to
    [end + 0.05], reaches a position it no longer skips after at most [N]
    jumps, [N] the number of accepted cuts. *)
Theorem process_skip_converges (cuts : list CutEvent) (t : Q) :
  find_first (process_skip_pred (process_skip_iter (accepted_count cuts) cuts t))
    cuts = None.
Proof.
  apply process_skip_iter_stops. unfold process_pending.
  rewrite <- length_filter_accepted. apply filter_length_le.
  intros x _ H. apply andb_true_iff in H. tauto.
Qed.

(** X7: a frame of the preview player either leaves the position alone or
    moves it forward to [end + 0.05] of an accepted cut whose
    [[start, end − 0.1)] holds the position, so a cut no longer than
    0.1 s is never skipped. *)
Theorem processCheckTime_forward (cuts : list CutEvent) (paused : bool) (t : Q) :
  processCheckTime cuts paused t = t \/
  exists c, In c cuts /\ is_accepted c = true /\
    start c <= t /\ t < end_ c - (1 # 10) /\
    processCheckTime cuts paused t = end_ c + (5 # 100) /\
    t < processCheckTime cuts paused t /\ 1 # 10 < end_ c - start c.
Proof.
  unfold processCheckTime. destruct paused; [left; reflexivity|].
  destruct (find_first (process_skip_pred t) cuts) as [c|] eqn:Hc;
    [right | left; reflexivity].
  destruct (find_first_some _ _ _ Hc) as (pre & post & Heq & Hx & _).
  apply process_skip_pred_true_iff in Hx as (Ha & Hs & Hlt).
  exists c. split; [rewrite Heq; apply in_or_app; right; left; reflexivity|].
  repeat split; try assumption; try reflexivity.
  - lra.
  - lra.
Qed.

(** ** Extra: the rendering progress *)

Lemma progress_run_done (rnd : Random) (n k : nat) :
  progress_run n rnd k 100 true = (100%Z, true).
Proof.
  revert k. induction n as [|n IH]; intro k; simpl; [reflexivity|]. apply IH.
Qed.

Lemma progress_step_bound (rnd : Random) (k : nat) (p : Z) (c : bool) :
  (p < 100)%Z ->
  let '(p', c', k') := progress_step rnd k p c in
  (p + 1 <= p')%Z /\ (p' <= 100)%Z /\ c' = c.
Proof.
  intro Hp. unfold progress_step.
  set (f1 := Qfloor (rnd k * 5)). set (f2 := Qfloor (rnd (S k) * 3)).
  destruct (Z.leb 100 p) eqn:E; [apply Z.leb_le in E; lia|].
  destruct (Z.ltb 60 p && Z.ltb p 80); simpl; (split; [|split]);
    try reflexivity; lia.
Qed.

Lemma progress_run_reaches (rnd : Random) (n : nat) :
  forall k p c, (p <= 100)%Z -> (Z.to_nat (100 - p) < n)%nat ->
  progress_run n rnd k p c = (100%Z, true).
Proof.
  induction n as [|n IH]; intros k p c Hp Hn; [lia|]. simpl.
  destruct (Z.eq_dec p 100) as [->|Hne].
  - simpl. destruct c; apply progress_run_done.
  - pose proof (progress_step_bound rnd k p c ltac:(lia)) as Hb.
    destruct (progress_step rnd k p c) as [[p' c'] k'].
    destruct Hb as (H1 & H2 & _). apply IH; lia.
Qed.

Lemma progress_run_le (rnd : Random) (n : nat) :
  forall k p c, (p <= 100)%Z -> (fst (progress_run n rnd k p c) <= 100)%Z.
Proof.
  induction n as [|n IH]; intros k p c Hp; simpl; [exact Hp|].
  destruct (Z.eq_dec p 100) as [->|Hne].
  - simpl. apply IH. lia.
  - pose proof (progress_step_bound rnd k p c ltac:(lia)) as Hb.
    destruct (progress_step rnd k p c) as [[p' c'] k'].
    apply IH. lia.
Qed.

(** X8: whatever [Math.random] returns, the simulated rendering progress
    never exceeds 100, and starting from 0 it is at 100 and marked complete
    after at most 101 runs of its effect. *)
Theorem progress_completes (rnd : Random) (k : nat) :
  progress_run 101 rnd k 0 false = (100%Z, true) /\
  forall n, (fst (progress_run n rnd k 0 false) <= 100)%Z.
Proof.
  split.
  - apply progress_run_reaches; simpl; lia.
  - intro n. apply progress_run_le. lia.
Qed.

(** ** Extra: the report's counts *)

(** X9: the five per-type counts of [generateEditingReport] add up to the
    number of cuts: every cut is counted under exactly one type. *)
Theorem report_counts_partition (cuts : list CutEvent) :
  (count_type cliche cuts + count_type filler cuts + count_type silence cuts +
   count_type repetition cuts + count_type stutter cuts)%nat = List.length cuts.
Proof.
  unfold count_type. induction cuts as [|c cs IH]; simpl; [reflexivity|].
  destruct c as [i ty w st en cf stt]; destruct ty; simpl; lia.
Qed.

(** ** Extra: a scrub session of the review view *)

Lemma scrubMove_keeps (cuts : list CutEvent) (left width x : Q) (s : Player) :
  let s' := handleScrubMove cuts left width x s in
  isScrubbing s' = isScrubbing s /\ paused s' = paused s /\
  wasPlaying s' = wasPlaying s /\ previewEndTime s' = previewEndTime s /\
  duration s' = duration s.
Proof.
  unfold handleScrubMove. destruct (Qle_bool (duration s) 0);
    repeat split; reflexivity.
Qed.

Lemma scrub_events_keep (cuts : list CutEvent) (left width : Q)
    (evs : list ScrubEvent) :
  forall s, isScrubbing s = true ->
  let s' := fold_left (scrub_event cuts left width) evs s in
  isScrubbing s' = true /\ paused s' = paused s /\
  wasPlaying s' = wasPlaying s /\ previewEndTime s' = previewEndTime s /\
  duration s' = duration s.
Proof.
  induction evs as [|ev evs IH]; intros s Hs; simpl;
    [repeat split; assumption || reflexivity|].
  destruct ev as [x|]; simpl.
  - destruct (scrubMove_keeps cuts left width x s) as (H1 & H2 & H3 & H4 & H5).
    destruct (IH (handleScrubMove cuts left width x s)) as (G1 & G2 & G3 & G4 & G5);
      [congruence|].
    repeat split; congruence.
  - replace (checkTime cuts s) with s by (unfold checkTime; rewrite Hs; reflexivity).
    apply IH. exact Hs.
Qed.

(** X10: a scrub session (press, any pointer moves and animation frames,
    release) leaves the video playing exactly when it was playing before,
    ends scrubbing, resets [wasPlayingRef], clears any preview bound and
    keeps the duration; frames during the session never skip. *)
Theorem scrub_session_restores (cuts : list CutEvent) (left width x0 : Q)
    (evs : list ScrubEvent) (s : Player) :
  let s' := scrub_session cuts left width x0 evs s in
  paused s' = paused s /\ isScrubbing s' = false /\ wasPlaying s' = false /\
  previewEndTime s' = None /\ duration s' = duration s.
Proof.
  unfold scrub_session, handleScrubStart.
  set (s1 := set_previewEndTime None (set_isScrubbing true s)).
  set (s2 := if negb (paused s1) then set_paused true (set_wasPlaying true s1)
             else set_wasPlaying false s1).
  assert (Hs2 : isScrubbing s2 = true /\ paused s2 = true /\
                wasPlaying s2 = negb (paused s) /\ previewEndTime s2 = None /\
                duration s2 = duration s).
  { unfold s2, s1. simpl. destruct (paused s) eqn:E; simpl;
      repeat split; try reflexivity; exact E. }
  destruct Hs2 as (K1 & K2 & K3 & K4 & K5).
  destruct (scrubMove_keeps cuts left width x0 s2) as (H1 & H2 & H3 & H4 & H5).
  destruct (scrub_events_keep cuts left width evs
              (handleScrubMove cuts left width x0 s2)) as (G1 & G2 & G3 & G4 & G5);
    [congruence|].
  set (s3 := fold_left _ evs _) in *.
  unfold handleScrubEnd. rewrite G1. simpl.
  replace (wasPlaying s3) with (negb (paused s)) by congruence.
  destruct (paused s) eqn:E; simpl; repeat split; congruence.
Qed.

(** ** Extra: the review tick moves the position forward only *)

(** X11: a frame of the review view's [checkTime] never moves the video
    position backward, and moves it only while playing with no scrub and no
    preview bound. *)
Theorem checkTime_forward (cuts : list CutEvent) (s : Player) :
  videoTime s <= videoTime (checkTime cuts s) /\
  (videoTime (checkTime cuts s) <> videoTime s ->
   isScrubbing s = false /\ paused s = false /\ previewEndTime s = None).
Proof.
  unfold checkTime.
  destruct (isScrubbing s) eqn:Hs; [split; [apply Qle_refl | tauto]|].
  destruct (paused s) eqn:Hp; simpl.
  - destruct (isPlaying s); simpl; (split; [apply Qle_refl | tauto]).
  - destruct (previewEndTime s) as [pe|] eqn:Hpe.
    + destruct (js_ge (videoTime s) pe);
        [|destruct (find_first _ cuts)]; (split; [apply Qle_refl | tauto]).
    + destruct (current_cut cuts (videoTime s)) as [c|] eqn:Hc; simpl.
      * split; [|tauto].
        destruct (find_first_some _ _ _ Hc) as (pre & post & _ & Hx & _).
        apply skip_pred_true_iff in Hx. apply Qlt_le_weak. tauto.
      * split; [apply Qle_refl | tauto].
Qed.

(** ** Extra: the mock analysis *)

Lemma Qfloor_unique (z : Z) (q : Q) :
  inject_Z z <= q -> q < inject_Z z + 1 -> Qfloor q = z.
Proof.
  intros H1 H2. pose proof (Qfloor_le q) as F1. pose proof (Qlt_floor q) as F2.
  rewrite inject_Z_plus in F2. change (inject_Z 1) with 1 in F2.
  assert (A : (Qfloor q < z + 1)%Z).
  { rewrite Zlt_Qlt, inject_Z_plus. change (inject_Z 1) with 1. lra. }
  assert (B : (z < Qfloor q + 1)%Z).
  { rewrite Zlt_Qlt, inject_Z_plus. change (inject_Z 1) with 1. lra. }
  lia.
Qed.

Lemma Qfloor_plus_Z (q : Q) (z : Z) : Qfloor (q + inject_Z z) = (Qfloor q + z)%Z.
Proof.
  pose proof (Qfloor_le q) as F1. pose proof (Qlt_floor q) as F2.
  rewrite inject_Z_plus in F2. change (inject_Z 1) with 1 in F2.
  apply Qfloor_unique; rewrite inject_Z_plus; lra.
Qed.

Lemma Qmake100 (z : Z) : (z # 100) == inject_Z z * (1 # 100).
Proof. unfold Qeq; simpl; lia. Qed.




Lemma toFixed2_nonpos (x : Q) : x <= 0 -> toFixed2 x <= 0.
Proof.
  intro H. unfold toFixed2, Math_abs.
  destruct (Qle_bool 0 x) eqn:E.
  - apply Qle_bool_iff in E.
    destruct (Qle_bool (inject_Z (10 ^ 21)) x) eqn:E2; [lra|].
    rewrite (Qfloor_unique 0); try change (inject_Z 0) with 0;
      [unfold Qle; simpl; lia | lra | lra].
  - destruct (Qle_bool (inject_Z (10 ^ 21)) (- x)) eqn:E2; [lra|].
    set (f := Qfloor (- x * 100 + (1 # 2))).
    assert (P : (0 <= f)%Z).
    { unfold f. rewrite <- (Qfloor_Z 0). apply Qfloor_resp_le.
      change (inject_Z 0) with 0. lra. }
    rewrite Qmake100. rewrite Zle_Qle in P. change (inject_Z 0) with 0 in P.
    lra.
Qed.


Lemma mock_cut_shape (rnd : Random) (d : Q) (i k : nat) :
  id (fst (mock_cut rnd d i k)) = cut_id i /\
  status (fst (mock_cut rnd d i k)) = accepted /\
  start (fst (mock_cut rnd d i k)) = toFixed2 (rnd k * (d - 5)) /\
  end_ (fst (mock_cut rnd d i k)) =
    toFixed2 (rnd k * (d - 5) + cut_length (type (fst (mock_cut rnd d i k)))).
Proof.
  unfold mock_cut.
  destruct (js_lt (rnd (S k)) (35 # 100));
    [|destruct (js_lt (rnd (S k)) (55 # 100));
      [|destruct (js_lt (rnd (S k)) (70 # 100));
        [|destruct (js_lt (rnd (S k)) (85 # 100))]]];
    repeat split.
Qed.

Lemma pick_some (rnd : Random) (k : nat) (l : list string) :
  0 <= rnd k < 1 -> l <> [] -> pick rnd k l <> None.
Proof.
  intros [H0 H1] Hl. unfold pick, js_index.
  set (n := List.length l).
  assert (Hn : (0 < n)%nat) by (destruct l; [congruence | simpl in n; unfold n; simpl; lia]).
  assert (HN : 1 <= inject_Z (Z.of_nat n)).
  { change 1 with (inject_Z 1). rewrite <- Zle_Qle. lia. }
  set (f := Qfloor (rnd k * inject_Z (Z.of_nat n))).
  assert (P : (0 <= f)%Z).
  { unfold f. rewrite <- (Qfloor_Z 0). apply Qfloor_resp_le.
    change (inject_Z 0) with 0. nra. }
  assert (U : (f < Z.of_nat n)%Z).
  { rewrite Zlt_Qlt. pose proof (Qfloor_le (rnd k * inject_Z (Z.of_nat n))).
    fold f in H. nra. }
  destruct (Z.ltb_spec f 0); [lia|].
  apply nth_error_Some. unfold n in U. lia.
Qed.

Lemma mock_cut_word_conf (rnd : Random) (d : Q) (i k : nat) :
  (forall j, 0 <= rnd j < 1) ->
  word (fst (mock_cut rnd d i k)) <> None /\
  8 # 10 <= confidence (fst (mock_cut rnd d i k)) /\
  confidence (fst (mock_cut rnd d i k)) < 99 # 100.
Proof.
  intro Hr. unfold mock_cut.
  destruct (js_lt (rnd (S k)) (35 # 100));
    [|destruct (js_lt (rnd (S k)) (55 # 100));
      [|destruct (js_lt (rnd (S k)) (70 # 100));
        [|destruct (js_lt (rnd (S k)) (85 # 100))]]]; simpl;
    (split; [try (apply pick_some; [apply Hr | discriminate]); discriminate|]);
    match goal with |- context [rnd ?j * _] => destruct (Hr j) end; split; lra.
Qed.

Lemma mock_cuts_length (rnd : Random) (d : Q) (i n k : nat) :
  List.length (mock_cuts rnd d i n k) = n.
Proof.
  revert i k. induction n as [|n IH]; intros i k; simpl; [reflexivity|].
  destruct (mock_cut rnd d i k) as [c k']. simpl. rewrite IH. reflexivity.
Qed.

Lemma mock_cuts_in (rnd : Random) (d : Q) (i n k : nat) (c : CutEvent) :
  In c (mock_cuts rnd d i n k) ->
  exists j k', (i <= j < i + n)%nat /\ c = fst (mock_cut rnd d j k').
Proof.
  revert i k. induction n as [|n IH]; intros i k; simpl; [tauto|].
  destruct (mock_cut rnd d i k) as [c0 k0] eqn:E. intros [<-|H].
  - exists i, k. rewrite E. split; [lia | reflexivity].
  - destruct (IH _ _ H) as (j & k' & Hj & ->). exists j, k'. split; [lia | reflexivity].
Qed.

Lemma mock_cuts_ids (rnd : Random) (d : Q) (i n k : nat) :
  map id (mock_cuts rnd d i n k) = map cut_id (seq i n).
Proof.
  revert i k. induction n as [|n IH]; intros i k; simpl; [reflexivity|].
  destruct (mock_cut_shape rnd d i k) as [Hid _].
  destruct (mock_cut rnd d i k) as [c k'] eqn:E. simpl in *.
  rewrite Hid, IH. reflexivity.
Qed.

Lemma cut_id_inj (i j : nat) : cut_id i = cut_id j -> i = j.
Proof.
  unfold cut_id. simpl. intro H. injection H as H.
  apply (f_equal NilEmpty.uint_of_string) in H.
  rewrite !NilEmpty.usu in H. injection H as H.
  apply DecimalNat.Unsigned.to_uint_inj. exact H.
Qed.

Lemma NoDup_cut_ids (i n : nat) : NoDup (map cut_id (seq i n)).
Proof.
  revert i. induction n as [|n IH]; intro i; simpl; constructor; [|apply IH].
  rewrite in_map_iff. intros (j & Hj & Hin). apply cut_id_inj in Hj.
  apply in_seq in Hin. lia.
Qed.

(** [a] does not start later than [b]. *)
Definition starts_before (a b : CutEvent) : Prop := start a <= start b.

Lemma insert_by_start_perm (x : CutEvent) (l : list CutEvent) :
  Permutation (x :: l) (insert_by_start x l).
Proof.
  induction l as [|y l IH]; simpl; [reflexivity|].
  destruct (Qle_bool (start x) (start y)); [reflexivity|].
  eapply perm_trans; [apply perm_swap | apply perm_skip, IH].
Qed.

Lemma sort_by_start_perm (l : list CutEvent) : Permutation l (sort_by_start l).
Proof.
  induction l as [|x l IH]; simpl; [reflexivity|].
  eapply perm_trans; [apply perm_skip, IH | apply insert_by_start_perm].
Qed.

Lemma insert_by_start_HdRel (x y : CutEvent) (l : list CutEvent) :
  HdRel starts_before y l -> starts_before y x ->
  HdRel starts_before y (insert_by_start x l).
Proof.
  destruct l as [|z l]; simpl; intros H Hyx; [constructor; exact Hyx|].
  destruct (Qle_bool (start x) (start z)); constructor; [exact Hyx|].
  inversion H; assumption.
Qed.

Lemma insert_by_start_sorted (x : CutEvent) (l : list CutEvent) :
  Sorted starts_before l -> Sorted starts_before (insert_by_start x l).
Proof.
  induction l as [|y l IH]; simpl; intro H; [repeat constructor|].
  destruct (Qle_bool (start x) (start y)) eqn:E.
  - constructor; [exact H|]. constructor. apply Qle_bool_iff, E.
  - inversion H; subst. constructor; [apply IH; assumption|].
    apply insert_by_start_HdRel; [assumption|].
    unfold starts_before. apply Qlt_le_weak, Qnot_le_lt.
    intro C. apply Qle_bool_iff in C. congruence.
Qed.

Lemma sort_by_start_sorted (l : list CutEvent) :
  Sorted starts_before (sort_by_start l).
Proof.
  induction l as [|x l IH]; simpl; [constructor|].
  apply insert_by_start_sorted, IH.
Qed.

Lemma insert_by_start_filter (q : Q) (x : CutEvent) (l : list CutEvent) :
  filter (fun c => Qeq_bool (start c) q) (insert_by_start x l) =
  filter (fun c => Qeq_bool (start c) q) (x :: l).
Proof.
  induction l as [|y l IH]; simpl; [reflexivity|].
  destruct (Qle_bool (start x) (start y)) eqn:E; [reflexivity|].
  simpl. rewrite IH. simpl.
  destruct (Qeq_bool (start x) q) eqn:Ex; destruct (Qeq_bool (start y) q) eqn:Ey;
    try reflexivity.
  apply Qeq_bool_iff in Ex, Ey.
  assert (C : Qle_bool (start x) (start y) = true) by (apply Qle_bool_iff; lra).
  congruence.
Qed.

Lemma sort_by_start_stable (q : Q) (l : list CutEvent) :
  filter (fun c => Qeq_bool (start c) q) (sort_by_start l) =
  filter (fun c => Qeq_bool (start c) q) l.
Proof.
  induction l as [|x l IH]; simpl; [reflexivity|].
  rewrite insert_by_start_filter. simpl. rewrite IH. reflexivity.
Qed.

Lemma analyzeVideoMock_in (rnd : Random) (d : Q) (c : CutEvent) :
  In c (analyzeVideoMock rnd d) ->
  exists j k', (j < Z.to_nat (numberOfCuts d))%nat /\ c = fst (mock_cut rnd d j k').
Proof.
  intro H. unfold analyzeVideoMock in H.
  apply (Permutation_in _ (Permutation_sym (sort_by_start_perm _))) in H.
  destruct (mock_cuts_in _ _ _ _ _ _ H) as (j & k' & Hj & ->).
  exists j, k'. split; [lia | reflexivity].
Qed.

Lemma NoDup_map_filter {A B : Type} (g : A -> B) (f : A -> bool) (l : list A) :
  NoDup (map g l) -> NoDup (map g (filter f l)).
Proof.
  induction l as [|x l IH]; simpl; intro H; [constructor|].
  inversion H as [|y ys Hn Hd]; subst.
  destruct (f x); simpl; [constructor|]; try (apply IH; assumption).
  intro C. apply Hn. rewrite in_map_iff in C |- *.
  destruct C as (z & Hz & Hin). apply filter_In in Hin. exists z. tauto.
Qed.

Lemma Sorted_filter_starts (f : CutEvent -> bool) (l : list CutEvent) :
  Sorted starts_before l -> Sorted starts_before (filter f l).
Proof.
  assert (T : Relations_1.Transitive starts_before)
    by (unfold Relations_1.Transitive, starts_before; intros; lra).
  intro H. apply StronglySorted_Sorted. apply Sorted_StronglySorted in H; [|exact T].
  induction H as [|x l Hs IH Hall]; simpl; [constructor|].
  destruct (f x); [|exact IH]. constructor; [exact IH|].
  rewrite Forall_forall in Hall |- *. intros y Hy. apply filter_In in Hy. apply Hall. tauto.
Qed.

(** X12: the mock analysis returns [max(5, floor(duration / 10))] cuts, so
    never fewer than five. *)
Theorem analyzeVideoMock_count (rnd : Random) (d : Q) :
  List.length (analyzeVideoMock rnd d) = Z.to_nat (Z.max 5 (Qfloor (d / 10))) /\
  (5 <= List.length (analyzeVideoMock rnd d))%nat.
Proof.
  unfold analyzeVideoMock.
  rewrite <- (Permutation_length (sort_by_start_perm _)), mock_cuts_length.
  unfold numberOfCuts. split; [reflexivity | lia].
Qed.

(** X13: the mock analysis returns the generated cuts reordered by start
    time: the result is sorted by [start] and is a permutation of the cuts
    the loop pushed. *)
Theorem analyzeVideoMock_sorted (rnd : Random) (d : Q) :
  Sorted starts_before (analyzeVideoMock rnd d) /\
  Permutation (mock_cuts rnd d 0 (Z.to_nat (numberOfCuts d)) 0)
              (analyzeVideoMock rnd d).
Proof.
  split; [apply sort_by_start_sorted | apply sort_by_start_perm].
Qed.

(** X14: the sort is stable: cuts with the same start time stay in the
    order the loop pushed them. *)
Theorem analyzeVideoMock_stable (rnd : Random) (d q : Q) :
  filter (fun c => Qeq_bool (start c) q) (analyzeVideoMock rnd d) =
  filter (fun c => Qeq_bool (start c) q)
         (mock_cuts rnd d 0 (Z.to_nat (numberOfCuts d)) 0).
Proof. apply sort_by_start_stable. Qed.

(** X15: the mock cuts have pairwise distinct ids, each of the form
    [cut-i] for a loop index [i] below the number of cuts. *)
Theorem analyzeVideoMock_ids (rnd : Random) (d : Q) :
  NoDup (map id (analyzeVideoMock rnd d)) /\
  (forall c, In c (analyzeVideoMock rnd d) ->
   exists i, (i < Z.to_nat (numberOfCuts d))%nat /\ id c = cut_id i).
Proof.
  split.
  - unfold analyzeVideoMock.
    apply (Permutation_NoDup (Permutation_map id (sort_by_start_perm _))).
    rewrite mock_cuts_ids. apply NoDup_cut_ids.
  - intros c Hc. destruct (analyzeVideoMock_in _ _ _ Hc) as (j & k & Hj & ->).
    exists j. split; [exact Hj | apply mock_cut_shape].
Qed.

(** X16: with draws of [Math.random()] in [[0, 1)], every mock cut is
    accepted, has a word, and has a confidence in [[0.8, 0.99)]. *)
Theorem analyzeVideoMock_fields (rnd : Random) (d : Q)
    (Hr : forall k, 0 <= rnd k < 1) :
  forall c, In c (analyzeVideoMock rnd d) ->
  status c = accepted /\ word c <> None /\
  8 # 10 <= confidence c /\ confidence c < 99 # 100.
Proof.
  intros c Hc. destruct (analyzeVideoMock_in _ _ _ Hc) as (j & k & _ & ->).
  split; [apply mock_cut_shape | apply mock_cut_word_conf, Hr].
Qed.

Lemma analyzeVideoMock_fields_witness :
  (forall k, 0 <= (fun _ : nat => 1 # 2) k < 1) /\
  (forall c, In c (analyzeVideoMock (fun _ => 1 # 2) 30) ->
   status c = accepted /\ word c <> None /\
   8 # 10 <= confidence c /\ confidence c < 99 # 100).
Proof.
  assert (Hr : forall k, 0 <= (fun _ : nat => 1 # 2) k < 1)
    by (intro k; simpl; split; unfold Qle, Qlt; simpl; lia).
  split; [exact Hr | apply (analyzeVideoMock_fields (fun _ => 1 # 2) 30 Hr)].
Defined.



(** X18: for a duration below 5 seconds the start draw is scaled by a
    negative number, and no mock cut starts after time 0. *)
Theorem analyzeVideoMock_short_video (rnd : Random) (d : Q)
    (Hr : forall k, 0 <= rnd k < 1) (Hd : d < 5) :
  forall c, In c (analyzeVideoMock rnd d) -> start c <= 0.
Proof.
  intros c Hc. destruct (analyzeVideoMock_in _ _ _ Hc) as (j & k & _ & ->).
  destruct (mock_cut_shape rnd d j k) as (_ & _ & -> & _).
  apply toFixed2_nonpos. destruct (Hr k). nra.
Qed.

Lemma analyzeVideoMock_short_video_witness :
  (forall k, 0 <= (fun _ : nat => 1 # 2) k < 1) /\ 3 < 5 /\
  (forall c, In c (analyzeVideoMock (fun _ => 1 # 2) 3) -> start c <= 0).
Proof.
  assert (Hr : forall k, 0 <= (fun _ : nat => 1 # 2) k < 1)
    by (intro k; simpl; split; unfold Qle, Qlt; simpl; lia).
  assert (H3 : 3 < 5) by (unfold Qlt; simpl; lia).
  split; [exact Hr | split; [exact H3 |]].
  apply (analyzeVideoMock_short_video (fun _ => 1 # 2) 3 Hr H3).
Defined.

(** X19: the cuts [handleStartAnalysis] hands to the review are sorted by
    start time, have distinct ids and are all accepted, whatever the
    configuration. *)
Theorem analysis_cuts_review_ready (rnd : Random) (cfg : VideoConfig)
    (od : Q) :
  Sorted starts_before (analysis_cuts rnd cfg od) /\
  NoDup (map id (analysis_cuts rnd cfg od)) /\
  (forall c, In c (analysis_cuts rnd cfg od) -> status c = accepted).
Proof.
  unfold analysis_cuts, filter_cuts. split; [|split].
  - apply Sorted_filter_starts, sort_by_start_sorted.
  - apply NoDup_map_filter. unfold analyzeVideoMock.
    apply (Permutation_NoDup (Permutation_map id (sort_by_start_perm _))).
    rewrite mock_cuts_ids. apply NoDup_cut_ids.
  - intros c Hc. apply filter_In in Hc. destruct Hc as [Hc _].
    destruct (analyzeVideoMock_in _ _ _ Hc) as (j & k & _ & ->).
    apply mock_cut_shape.
Qed.

(** ** Extra: the time labels *)

(** Reading back a label field as an integer. *)
Definition parse_int (s : string) : option Z :=
  option_map Z.of_int (NilEmpty.int_of_string s).

Lemma parse_js_num_string (z : Z) : parse_int (js_num_string z) = Some z.
Proof.
  unfold parse_int, js_num_string. rewrite NilEmpty.isi. simpl.
  rewrite DecimalZ.of_to. reflexivity.
Qed.

Definition padded_ok (w : nat) (n : nat) : bool :=
  let p := padStart w (js_num_string (Z.of_nat n)) in
  match parse_int p with
  | Some z => Z.eqb z (Z.of_nat n)
  | None => false
  end && Nat.eqb (String.length p) w.

Lemma padded_table2 : forallb (padded_ok 2) (seq 0 60) = true.
Proof. vm_compute. reflexivity. Qed.


Lemma padded_parse (w bound : nat) (z : Z) :
  forallb (padded_ok w) (seq 0 bound) = true -> (0 <= z < Z.of_nat bound)%Z ->
  parse_int (padStart w (js_num_string z)) = Some z /\
  String.length (padStart w (js_num_string z)) = w.
Proof.
  intros T Hz. rewrite forallb_forall in T.
  specialize (T (Z.to_nat z) ltac:(apply in_seq; lia)).
  unfold padded_ok in T. rewrite Z2Nat.id in T by lia.
  destruct (parse_int _) as [z'|]; [|discriminate].
  apply andb_prop in T. destruct T as [T1 T2].
  apply Z.eqb_eq in T1. apply Nat.eqb_eq in T2. subst. tauto.
Qed.

Lemma Qfloor_bounds (q : Q) : inject_Z (Qfloor q) <= q /\ q < inject_Z (Qfloor q) + 1.
Proof.
  split; [apply Qfloor_le|]. pose proof (Qlt_floor q) as F.
  rewrite inject_Z_plus in F. exact F.
Qed.

(** For a nonnegative time, the minutes and seconds of both labels. *)
Lemma label_fields (s : Q) :
  0 <= s ->
  (0 <= Qfloor (s / 60))%Z /\
  Qfloor (js_mod s 60) = (Qfloor s - 60 * Qfloor (s / 60))%Z /\
  (0 <= Qfloor (js_mod s 60) < 60)%Z /\
  js_mod s 1 == s - inject_Z (Qfloor s).
Proof.
  intro H.
  assert (E60 : s / 60 == s * (1 # 60)) by reflexivity.
  set (m := Qfloor (s / 60)).
  destruct (Qfloor_bounds (s / 60)) as [M0 M1]. fold m in M0, M1.
  assert (Hm : (0 <= m)%Z).
  { unfold m. rewrite <- (Qfloor_Z 0). apply Qfloor_resp_le.
    change (inject_Z 0) with 0. rewrite E60. lra. }
  assert (T60 : Qtrunc (s / 60) = m).
  { unfold Qtrunc. rewrite (proj2 (Qle_bool_iff 0 (s / 60))) by (rewrite E60; lra).
    reflexivity. }
  assert (T1 : Qtrunc (s / 1) = Qfloor s).
  { unfold Qtrunc. rewrite (proj2 (Qle_bool_iff 0 (s / 1)))
      by (setoid_replace (s / 1) with s by (field); lra).
    apply Qfloor_comp. field. }
  assert (F : Qfloor (js_mod s 60) = (Qfloor s - 60 * m)%Z).
  { unfold js_mod. rewrite T60.
    rewrite (Qfloor_comp _ (s + inject_Z (- (60 * m)))).
    - apply Qfloor_plus_Z.
    - rewrite inject_Z_opp, inject_Z_mult. reflexivity. }
  split; [exact Hm | split; [exact F | split]].
  - rewrite F. destruct (Qfloor_bounds s) as [S0 S1].
    rewrite E60 in M0, M1.
    assert (A : (60 * m <= Qfloor s)%Z).
    { assert (B : (60 * m < Qfloor s + 1)%Z)
        by (rewrite Zlt_Qlt, inject_Z_mult, inject_Z_plus; change (inject_Z 60) with 60;
            change (inject_Z 1) with 1; lra).
      lia. }
    assert (B : (Qfloor s < 60 * m + 60)%Z).
    { rewrite Zlt_Qlt, inject_Z_plus, inject_Z_mult. change (inject_Z 60) with 60. lra. }
    lia.
  - unfold js_mod. rewrite T1. change (inject_Z 1) with 1. ring.
Qed.

(** X20: for a nonnegative time, [formatTime] prints the minutes, a colon and
    exactly two digits of seconds, and reading the two fields back gives
    [floor(seconds / 60)] and a value in [[0, 60)] that together make up
    [floor(seconds)]. *)
Theorem formatTime_decodes (s : Q) (H : 0 <= s) :
  exists m ss, formatTime s = String.append m (String.append ":" ss) /\
  String.length ss = 2%nat /\ parse_int m = Some (Qfloor (s / 60)) /\
  exists sec, parse_int ss = Some sec /\ (0 <= sec < 60)%Z /\
              (60 * Qfloor (s / 60) + sec)%Z = Qfloor s.
Proof.
  destruct (label_fields s H) as (Hm & F & Bs & _).
  exists (js_num_string (Qfloor (s / 60))),
         (padStart 2 (js_num_string (Qfloor (js_mod s 60)))).
  destruct (padded_parse 2 60 _ padded_table2 Bs) as [P L].
  split; [reflexivity|]. split; [exact L|]. split; [apply parse_js_num_string|].
  exists (Qfloor (js_mod s 60)). split; [exact P|]. split; [exact Bs | lia].
Qed.

Lemma formatTime_decodes_witness :
  0 <= 754 # 10 /\
  exists m ss, formatTime (754 # 10) = String.append m (String.append ":" ss) /\
  String.length ss = 2%nat /\ parse_int m = Some (Qfloor ((754 # 10) / 60)) /\
  exists sec, parse_int ss = Some sec /\ (0 <= sec < 60)%Z /\
              (60 * Qfloor ((754 # 10) / 60) + sec)%Z = Qfloor (754 # 10).
Proof.
  assert (H : 0 <= 754 # 10) by (unfold Qle; simpl; lia).
  split; [exact H | apply (formatTime_decodes (754 # 10) H)].
Defined.



(** X22: a time strictly between -1 and 0 (a mock cut's start for a video
    shorter than 5 seconds) is labelled "-1:-1", and its exact label starts
    with "-1:-1:". *)
Theorem formatTime_negative (s : Q) (H1 : -1 < s) (H2 : s < 0) :
  formatTime s = "-1:-1" /\ exists r, formatTimeExact s = String.append "-1:-1:" r.
Proof.
  assert (E60 : s / 60 == s * (1 # 60)) by reflexivity.
  assert (Fm : Qfloor (s / 60) = (-1)%Z).
  { apply Qfloor_unique; rewrite E60; change (inject_Z (-1)) with (-1); lra. }
  assert (Tm : Qtrunc (s / 60) = 0%Z).
  { unfold Qtrunc. destruct (Qle_bool 0 (s / 60)) eqn:E.
    - apply Qle_bool_iff in E. rewrite E60 in E. lra.
    - unfold Qceiling. rewrite (Qfloor_unique 0); [reflexivity| |];
        change (inject_Z 0) with 0; rewrite E60; lra. }
  assert (Fs : Qfloor (js_mod s 60) = (-1)%Z).
  { unfold js_mod. rewrite Tm. apply Qfloor_unique;
      change (inject_Z (-1)) with (-1); change (inject_Z 0) with 0; lra. }
  unfold formatTime, formatTimeExact. rewrite Fm, Fs.
  split; [reflexivity|]. eexists. reflexivity.
Qed.

Lemma formatTime_negative_witness :
  -1 < -(3 # 10) /\ -(3 # 10) < 0 /\
  formatTime (-(3 # 10)) = "-1:-1" /\
  exists r, formatTimeExact (-(3 # 10)) = String.append "-1:-1:" r.
Proof.
  assert (H1 : -1 < -(3 # 10)) by (unfold Qlt; simpl; lia).
  assert (H2 : -(3 # 10) < 0) by (unfold Qlt; simpl; lia).
  split; [exact H1 | split; [exact H2 | apply (formatTime_negative _ H1 H2)]].
Defined.

(** ** Extra: the stage label of the progress view *)

Definition stage_rank (p : Z) : nat :=
  if Z.ltb p 20 then 0 else if Z.ltb p 45 then 1 else if Z.ltb p 70 then 2
  else if Z.ltb p 90 then 3 else 4.

Lemma stage_rank_label (p : Z) :
  nth_error stages (stage_rank p) = Some (getStageInfo_label p).
Proof.
  unfold stage_rank, getStageInfo_label.
  destruct (Z.ltb p 20); [reflexivity|]. destruct (Z.ltb p 45); [reflexivity|].
  destruct (Z.ltb p 70); [reflexivity|]. destruct (Z.ltb p 90); reflexivity.
Qed.

Lemma stage_rank_mono (p p' : Z) : (p <= p')%Z -> (stage_rank p <= stage_rank p')%nat.
Proof.
  intro H. unfold stage_rank.
  destruct (Z.ltb_spec p 20); destruct (Z.ltb_spec p' 20); try lia;
  destruct (Z.ltb_spec p 45); destruct (Z.ltb_spec p' 45); try lia;
  destruct (Z.ltb_spec p 70); destruct (Z.ltb_spec p' 70); try lia;
  destruct (Z.ltb_spec p 90); destruct (Z.ltb_spec p' 90); lia.
Qed.

Lemma progress_step_mono (rnd : Random) (k : nat) (p : Z) (c : bool) :
  (p <= fst (fst (progress_step rnd k p c)))%Z.
Proof.
  destruct (Z.leb_spec 100 p) as [Hp|Hp].
  - unfold progress_step. rewrite (proj2 (Z.leb_le 100 p) Hp). simpl. lia.
  - pose proof (progress_step_bound rnd k p c Hp) as B.
    destruct (progress_step rnd k p c) as [[p' c'] k']. simpl. lia.
Qed.

(** X23: a tick of the progress timer never moves the stage label of the
    processing view back to an earlier stage. *)
Theorem getStageInfo_forward (rnd : Random) (k : nat) (p : Z) (c : bool) :
  exists i j, (i <= j)%nat /\
  nth_error stages i = Some (getStageInfo_label p) /\
  nth_error stages j =
    Some (getStageInfo_label (fst (fst (progress_step rnd k p c)))).
Proof.
  exists (stage_rank p), (stage_rank (fst (fst (progress_step rnd k p c)))).
  split; [apply stage_rank_mono, progress_step_mono|].
  split; apply stage_rank_label.
Qed.
